(** * Video.js: the web [Video] component of react/features/base/media

    The component renders one [<video>] element inside a stable [<div>],
    hands that element to the [attach]/[detach] methods of a JitsiTrack and
    blackboxes itself from React by answering [false] in
    [shouldComponentUpdate].

    The embedding is a state-passing one.  A method of the class is a
    computation over a state made of the instance ([this]), the world outside
    the component (the DOM objects and the state of the track library) and
    the ordered log of every effect the component performs on that world. *)

From Stdlib Require Import ZArith List String Bool Lia.
From stdpp Require Import base option list gmap.
Import ListNotations.

(** ** JavaScript values *)

(** A reference-typed JavaScript value as the component sees one: the two
    falsy values a prop or a field may hold, or a reference to an object. *)
Inductive js (A : Type) : Type :=
| undefined
| null
| obj (a : A).
Arguments undefined {A}.
Arguments null {A}.
Arguments obj {A} a.

Definition truthy {A} (v : js A) : bool :=
  match v with
  | obj _ => true
  | _ => false
  end.

(** Object identities.  Two references are the same object exactly when the
    numbers are equal. *)
Abbreviation elem := nat (only parsing).
Abbreviation handle := nat (only parsing).
Abbreviation callback := nat (only parsing).

(** [a === b] on references. *)
Definition strict_eq (a b : js nat) : bool :=
  match a, b with
  | undefined, undefined => true
  | null, null => true
  | obj x, obj y => Nat.eqb x y
  | _, _ => false
  end.

Definition strict_neq (a b : js nat) : bool := negb (strict_eq a b).

(** ** Props *)

(** The redux representation of a track: an object of its own identity
    ([track_ref]) wrapping the JitsiTrack in its [jitsiTrack] field. *)
Record VideoTrack := {
  track_ref : nat;
  jitsiTrack : js handle
}.

Record Props := {
  className : string;
  id : string;
  onVideoPlaying : js callback;
  videoTrack : js VideoTrack
}.

(** [static defaultProps]. *)
Definition defaultProps (onVideoPlaying0 : js callback)
    (videoTrack0 : js VideoTrack) : Props :=
  {| className := ""; id := "";
     onVideoPlaying := onVideoPlaying0; videoTrack := videoTrack0 |}.

(** [videoTrack && videoTrack.jitsiTrack]: a falsy left operand is the value
    of the conjunction. *)
Definition and_jitsiTrack (v : js VideoTrack) : js handle :=
  match v with
  | undefined => undefined
  | null => null
  | obj vt => jitsiTrack vt
  end.

(** ** The instance *)

Record Video := {
  props : Props;
  _videoElement : js elem
}.

(** The two methods bound once in the constructor.  A bound method is an
    object of the instance, so it is the same value at every use: one is
    used as an event handler, the other as a ref callback. *)
Inductive EventHandler := Bound_onVideoPlaying.
Inductive RefCallback := Bound_setVideoElement.

(** ** The world outside the component *)

(** The two properties of a video element the component writes.  [volume] is
    in percent: a new media element plays at 100. *)
Record DomElement := {
  volume : Z;
  onplaying : option EventHandler
}.

Definition new_element : DomElement :=
  {| volume := 100; onplaying := None |}.

(** The DOM objects and, in [ext], whatever the track library and the
    application keep. *)
Record World (X : Type) := {
  dom : gmap nat DomElement;
  ext : X
}.
Arguments dom {X} w.
Arguments ext {X} w.

Definition dom_get {X} (w : World X) (e : elem) : DomElement :=
  default new_element (dom w !! e).

(** What the component uses of the outside: the [attach] and [detach]
    methods and the [containers] array of a JitsiTrack, and the application's
    [onVideoPlaying] function.  The methods belong to lib-jitsi-meet (and to
    the Temasys plugin under it); they may do anything to the world. *)
Class Externals (X : Type) := {
  track_attach : handle -> js elem -> World X -> js elem * World X;
  track_detach : handle -> elem -> World X -> World X;
  track_containers : handle -> X -> list elem;
  run_callback : callback -> World X -> World X
}.

(** [array.includes(e)] on an array of references. *)
Fixpoint includes (e : elem) (array : list elem) : bool :=
  match array with
  | [] => false
  | c :: rest => Nat.eqb c e || includes e rest
  end.

(** The effects of the component on the outside, as it performs them. *)
Inductive Event :=
| EvSetVolume (e : elem) (v : Z)
| EvSetOnplaying (e : elem) (f : EventHandler)
| EvAttach (h : handle) (arg : js elem)
| EvDetach (h : handle) (arg : elem)
| EvCallback (cb : callback).

Definition is_attach (ev : Event) : bool :=
  match ev with EvAttach _ _ => true | _ => false end.

Definition is_detach (ev : Event) : bool :=
  match ev with EvDetach _ _ => true | _ => false end.

Definition is_library_call (ev : Event) : bool :=
  is_attach ev || is_detach ev.

(** A write of [volume] or of [onplaying]. *)
Definition is_element_write (ev : Event) : bool :=
  match ev with
  | EvSetVolume _ _ | EvSetOnplaying _ _ => true
  | _ => false
  end.

(** The element a write goes to. *)
Definition write_target (ev : Event) : option elem :=
  match ev with
  | EvSetVolume e _ | EvSetOnplaying e _ => Some e
  | _ => None
  end.

(** ** Computations *)

Inductive JsError := TypeError.

Record State (X : Type) := {
  this : Video;
  world : World X;
  log : list Event
}.
Arguments this {X} s.
Arguments world {X} s.
Arguments log {X} s.

Inductive Outcome (X A : Type) :=
| Normal (a : A) (s : State X)
| Thrown (err : JsError) (s : State X).
Arguments Normal {X A} a s.
Arguments Thrown {X A} err s.

Definition M (X A : Type) := State X -> Outcome X A.

Definition ret {X A} (a : A) : M X A := fun s => Normal a s.

Definition bind {X A B} (m : M X A) (k : A -> M X B) : M X B :=
  fun s =>
    match m s with
    | Normal a s' => k a s'
    | Thrown err s' => Thrown err s'
    end.

Definition throw {X A} (err : JsError) : M X A := fun s => Thrown err s.

Declare Scope js_scope.
Delimit Scope js_scope with js.
Notation "x <- m ;; k" := (bind m (fun x => k))
  (at level 100, m at next level, right associativity) : js_scope.
Notation "m ;; k" := (bind m (fun _ => k))
  (at level 100, right associativity) : js_scope.
Open Scope js_scope.

Definition final_state {X A} (o : Outcome X A) : State X :=
  match o with
  | Normal _ s => s
  | Thrown _ s => s
  end.

Definition returned {X A} (o : Outcome X A) : option A :=
  match o with
  | Normal a _ => Some a
  | Thrown _ _ => None
  end.

(** ** React elements *)

Inductive AttrValue :=
| AttrBool (b : bool)
| AttrString (s : string)
| AttrRef (f : RefCallback).

#[warnings="-register-all"]
Inductive ReactElement :=
| Element (type : string) (attrs : list (string * AttrValue))
    (children : list ReactElement).

(** ** The host *)

(** The lifecycle operations of React on the component. *)
Inductive Lifecycle :=
| Mount (p : Props) (el : elem)
| Update (nextProps : Props)
| Unmount.

(** The instance, when the component is mounted, with the world and the
    effects so far. *)
Record Host (X : Type) := {
  instance : option Video;
  outside : World X;
  effects : list Event
}.
Arguments instance {X} h.
Arguments outside {X} h.
Arguments effects {X} h.

Section Component.
Context {X : Type} {E : Externals X}.

(** *** Primitive steps *)

Definition get_this : M X Video := fun s => Normal (this s) s.

Definition put_this (t : Video) : M X unit :=
  fun s => Normal tt {| this := t; world := world s; log := log s |}.

Definition emit (ev : Event) (f : World X -> World X) : M X unit :=
  fun s =>
    Normal tt {| this := this s; world := f (world s);
                 log := log s ++ [ev] |}.

Definition dom_update (e : elem) (f : DomElement -> DomElement)
    (w : World X) : World X :=
  {| dom := <[e := f (dom_get w e)]> (dom w); ext := ext w |}.

(** [target.volume = v]; assigning a property of [null] or of [undefined]
    throws. *)
Definition set_volume (target : js elem) (v : Z) : M X unit :=
  match target with
  | obj e =>
      emit (EvSetVolume e v)
        (dom_update e (fun d => {| volume := v; onplaying := onplaying d |}))
  | _ => throw TypeError
  end.

(** [target.onplaying = f]. *)
Definition set_onplaying (target : js elem) (f : EventHandler) : M X unit :=
  match target with
  | obj e =>
      emit (EvSetOnplaying e f)
        (dom_update e (fun d => {| volume := volume d; onplaying := Some f |}))
  | _ => throw TypeError
  end.

(** [jitsiTrack.attach(container)]. *)
Definition attach (h : handle) (container : js elem) : M X (js elem) :=
  fun s =>
    let (r, w) := track_attach h container (world s) in
    Normal r {| this := this s; world := w;
                log := log s ++ [EvAttach h container] |}.

(** [jitsiTrack.detach(container)]. *)
Definition detach (h : handle) (container : elem) : M X unit :=
  emit (EvDetach h container) (track_detach h container).

(** [jitsiTrack.containers.includes(element)]. *)
Definition containers_includes (h : handle) (element : elem) : M X bool :=
  fun s =>
    Normal (includes element (track_containers h (ext (world s)))) s.

Definition call (cb : callback) : M X unit :=
  emit (EvCallback cb) (run_callback cb).

(** *** The methods of the class *)

Definition constructor (p : Props) : Video :=
  {| props := p; _videoElement := null |}.

Definition _setVideoElement (element : js elem) : M X unit :=
  t <- get_this ;;
  put_this {| props := props t; _videoElement := element |}.

Definition _onVideoPlaying : M X unit :=
  t <- get_this ;;
  match onVideoPlaying (props t) with
  | obj cb => call cb
  | _ => ret tt
  end.

Definition _attachTrack (videoTrack0 : js VideoTrack) : M X unit :=
  match videoTrack0 with
  | obj vt =>
      match jitsiTrack vt with
      | obj h =>
          t <- get_this ;;
          updatedVideoElement <- attach h (_videoElement t) ;;
          _setVideoElement updatedVideoElement
      | _ => ret tt
      end
  | _ => ret tt
  end.

Definition _detachTrack (videoTrack0 : js VideoTrack) : M X unit :=
  t <- get_this ;;
  match _videoElement t with
  | obj e =>
      match videoTrack0 with
      | obj vt =>
          match jitsiTrack vt with
          | obj h =>
              included <- containers_includes h e ;;
              if included then detach h e else ret tt
          | _ => ret tt
          end
      | _ => ret tt
      end
  | _ => ret tt
  end.

Definition componentDidMount : M X unit :=
  t <- get_this ;;
  set_volume (_videoElement t) 0 ;;
  t <- get_this ;;
  set_onplaying (_videoElement t) Bound_onVideoPlaying ;;
  t <- get_this ;;
  _attachTrack (videoTrack (props t)).

Definition componentWillUnmount : M X unit :=
  t <- get_this ;;
  _detachTrack (videoTrack (props t)).

Definition shouldComponentUpdate (nextProps : Props) : M X bool :=
  t <- get_this ;;
  let currentJitsiTrack := and_jitsiTrack (videoTrack (props t)) in
  let nextJitsiTrack := and_jitsiTrack (videoTrack nextProps) in
  (if strict_neq currentJitsiTrack nextJitsiTrack
   then
     _detachTrack (videoTrack (props t)) ;;
     _attachTrack (videoTrack nextProps)
   else ret tt) ;;
  ret false.

(** [render()]. *)
Definition render (t : Video) : ReactElement :=
  Element "div" []
    [ Element "video"
        [ ("autoPlay"%string, AttrBool true);
          ("className"%string, AttrString (className (props t)));
          ("id"%string, AttrString (id (props t)));
          ("ref"%string, AttrRef Bound_setVideoElement) ]
        [] ].

(** *** What React and the browser do with the instance *)

(** The browser dispatches [playing] on an element: the handler in its
    [onplaying] property runs. *)
Definition dispatch_playing (e : elem) : M X unit :=
  fun s =>
    match onplaying (dom_get (world s) e) with
    | Some Bound_onVideoPlaying => _onVideoPlaying s
    | None => ret tt s
    end.

(** Mounting: React constructs the instance, renders it, creates the DOM
    element [el] of the [<video>], passes it to the ref callback and calls
    [componentDidMount]. *)
Definition mount (el : elem) : M X unit :=
  _setVideoElement (obj el) ;;
  componentDidMount.

(** New props: React asks [shouldComponentUpdate], then assigns
    [this.props] whatever the answer was. *)
Definition update (nextProps : Props) : M X bool :=
  rerender <- shouldComponentUpdate nextProps ;;
  t <- get_this ;;
  put_this {| props := nextProps; _videoElement := _videoElement t |} ;;
  ret rerender.

(** Unmounting: [componentWillUnmount], then the ref callback with [null]. *)
Definition unmount : M X unit :=
  componentWillUnmount ;;
  _setVideoElement null.

Definition run_on {A} (t : Video) (m : M X A) (h : Host X) : Outcome X A :=
  m {| this := t; world := outside h; log := effects h |}.

Definition host_of {A} (keep : bool) (o : Outcome X A) : Host X :=
  {| instance := if keep then Some (this (final_state o)) else None;
     outside := world (final_state o);
     effects := log (final_state o) |}.

(** One lifecycle operation.  React mounts only what is not mounted and
    updates or unmounts only what is. *)
Definition lifecycle (op : Lifecycle) (h : Host X) : Host X :=
  match op, instance h with
  | Mount p el, None => host_of true (run_on (constructor p) (mount el) h)
  | Update nextProps, Some t => host_of true (run_on t (update nextProps) h)
  | Unmount, Some t => host_of false (run_on t unmount h)
  | _, _ => h
  end.

Fixpoint lifecycles (ops : list Lifecycle) (h : Host X) : Host X :=
  match ops with
  | [] => h
  | op :: rest => lifecycles rest (lifecycle op h)
  end.

(** The element React creates for a mount is a new object: no track has it
    among its containers yet. *)
Definition admissible (op : Lifecycle) (h : Host X) : Prop :=
  match op with
  | Mount _ el =>
      forall hd, includes el (track_containers hd (ext (outside h))) = false
  | _ => True
  end.

Inductive reachable : Host X -> Prop :=
| reachable_unmounted (w : World X) :
    reachable {| instance := None; outside := w; effects := [] |}
| reachable_lifecycle (op : Lifecycle) (h : Host X) :
    reachable h -> admissible op h -> reachable (lifecycle op h).

(** The surface the adapter holds, if there is an adapter and it holds
    one. *)
Definition stored_surface (h : Host X) : js elem :=
  match instance h with
  | Some t => _videoElement t
  | None => null
  end.

(** The tracks that have the element among their containers are all the
    same track. *)
Definition at_most_one_track (h : Host X) : Prop :=
  forall e h1 h2,
    stored_surface h = obj e ->
    includes e (track_containers h1 (ext (outside h))) = true ->
    includes e (track_containers h2 (ext (outside h))) = true ->
    h1 = h2.

(** Modelled from the spec: the track library (lib-jitsi-meet) is not among
    the sources, and the spec gives a track [attach(surface) -> surface],
    [detach(surface)] and [containers], the set of the surfaces bound to it.
    What the component relies on: [attach] on a track changes the containers
    of that track only and returns the element it was given or an object no
    other track has; [detach] removes the element from the containers of the
    track and adds nothing anywhere. *)
Record TrackContract : Prop := {
  attach_other : forall h x w h',
    h' <> h ->
    track_containers h' (ext (snd (track_attach h x w)))
    = track_containers h' (ext w);
  attach_returns : forall h x w e',
    fst (track_attach h x w) = obj e' ->
    x = obj e' \/
    forall h', h' <> h -> includes e' (track_containers h' (ext w)) = false;
  detach_removes : forall h e w,
    includes e (track_containers h (ext (track_detach h e w))) = false;
  detach_adds_nothing : forall h e w h' e',
    includes e' (track_containers h' (ext (track_detach h e w))) = true ->
    includes e' (track_containers h' (ext w)) = true
}.

End Component.
Arguments TrackContract {X} E.

(** The effects a computation added to the log of the state it started
    from. *)
Definition new_events {X A} (s : State X) (o : Outcome X A) : list Event :=
  drop (length (log s)) (log (final_state o)).

(** ** Two track libraries to run the component on *)

(** Both keep, per track, the array of its containers.  [attach] pushes the
    container it returns and [detach] removes the container it is given, as
    JitsiTrack does.  In a browser with WebRTC [attach] returns the element
    it was given; under the Temasys plugin it returns the object the plugin
    put in the place of the element, with the properties of the element
    copied onto it.  [replacement] is that object. *)
Definition containers_of (x : gmap nat (list nat)) (h : handle) : list elem :=
  default [] (x !! h).

Definition example_attach (replacement : elem -> elem) (h : handle)
    (container : js elem) (w : World (gmap nat (list nat)))
    : js elem * World (gmap nat (list nat)) :=
  match container with
  | obj e =>
      let e' := replacement e in
      (obj e',
       {| dom := if Nat.eqb e' e then dom w else <[e' := dom_get w e]> (dom w);
          ext := <[h := containers_of (ext w) h ++ [e']]> (ext w) |})
  | _ => (container, w)
  end.

Definition example_detach (h : handle) (container : elem)
    (w : World (gmap nat (list nat))) : World (gmap nat (list nat)) :=
  {| dom := dom w;
     ext := <[h := List.filter (fun c => negb (Nat.eqb c container))
                     (containers_of (ext w) h)]> (ext w) |}.

Definition example_library (replacement : elem -> elem)
    : Externals (gmap nat (list nat)) :=
  {| track_attach := example_attach replacement;
     track_detach := example_detach;
     track_containers := fun h x => containers_of x h;
     run_callback := fun _ w => w |}.

Definition webrtc_library : Externals (gmap nat (list nat)) :=
  example_library (fun e => e).

Definition temasys_library : Externals (gmap nat (list nat)) :=
  example_library (fun e => e + 100).

Definition empty_world : World (gmap nat (list nat)) :=
  {| dom := ∅; ext := ∅ |}.

(** Props and tracks for the examples: two redux records around the same
    JitsiTrack 7, and one around JitsiTrack 8. *)
Definition trackA : VideoTrack := {| track_ref := 1; jitsiTrack := obj 7 |}.
Definition trackA' : VideoTrack := {| track_ref := 2; jitsiTrack := obj 7 |}.
Definition trackB : VideoTrack := {| track_ref := 3; jitsiTrack := obj 8 |}.

Definition props_with (vt : js VideoTrack) : Props :=
  defaultProps undefined vt.

(** The instance with props [p] holding [surface], in a world where nothing
    happened yet. *)
Definition state_with (p : Props) (surface : js elem)
    : State (gmap nat (list nat)) :=
  {| this := {| props := p; _videoElement := surface |};
     world := empty_world; log := [] |}.

(** The component mounted on element 1 with the track of JitsiTrack 7, in a
    browser with WebRTC. *)
Definition mounted_with_trackA : State (gmap nat (list nat)) :=
  final_state
    (mount (E:=webrtc_library) 1 (state_with (props_with (obj trackA)) null)).

Definition unmounted_host : Host (gmap nat (list nat)) :=
  {| instance := None; outside := empty_world; effects := [] |}.

(** Mounted with JitsiTrack 7 on element 1, then updated to JitsiTrack 8. *)
Definition host_after_track_change : Host (gmap nat (list nat)) :=
  lifecycle (E:=webrtc_library) (Update (props_with (obj trackB)))
    (lifecycle (E:=webrtc_library) (Mount (props_with (obj trackA)) 1)
       unmounted_host).

(** ** Conditions the properties speak of *)

(** The track is absent, or it is there without a JitsiTrack. *)
Definition absent_or_no_handle (vt : js VideoTrack) : Prop :=
  truthy vt = false \/ exists v, vt = obj v /\ truthy (jitsiTrack v) = false.

(** The four conditions of a detach: a surface is stored, a track is given,
    it has a JitsiTrack, and the containers of that JitsiTrack include the
    stored surface. *)
Definition detach_conditions {X} {E : Externals X}
    (t : Video) (vt : js VideoTrack) (w : World X) (h : handle) (e : elem)
    : Prop :=
  _videoElement t = obj e /\
  exists v, vt = obj v /\ jitsiTrack v = obj h /\
            includes e (track_containers h (ext w)) = true.

(** One call of [detach] on the JitsiTrack of [current] and then one call of
    [attach] on the JitsiTrack of [next], and nothing else. *)
Definition one_detach_then_one_attach (current next : js VideoTrack)
    (evs : list Event) : Prop :=
  exists hc e hn x,
    and_jitsiTrack current = obj hc /\
    and_jitsiTrack next = obj hn /\
    evs = [EvDetach hc e; EvAttach hn x].

(** The state [attach] on JitsiTrack [h] leaves: the library's world, the
    surface the library returned stored in the instance, one call logged. *)
Definition after_attach {X} {E : Externals X} (h : handle) (s : State X)
    : State X :=
  let r := track_attach h (_videoElement (this s)) (world s) in
  {| this := {| props := props (this s); _videoElement := fst r |};
     world := snd r;
     log := log s ++ [EvAttach h (_videoElement (this s))] |}.

(** The state [detach] of [e] on JitsiTrack [h] leaves. *)
Definition after_detach {X} {E : Externals X} (h : handle) (e : elem)
    (s : State X) : State X :=
  {| this := this s;
     world := track_detach h e (world s);
     log := log s ++ [EvDetach h e] |}.

(** Whatever the state, the computation adds to the log no write of
    [volume] and no write of [onplaying]. *)
Definition quiet {X A} (m : M X A) : Prop :=
  forall s, exists evs,
    log (final_state (m s)) = log s ++ evs /\
    existsb is_element_write evs = false.

(** Every track that has the stored surface among its containers is the
    JitsiTrack of [vt]. *)
Definition held_by {X} {E : Externals X} (vt : js VideoTrack) (s : State X)
    : Prop :=
  forall e hd,
    _videoElement (this s) = obj e ->
    includes e (track_containers hd (ext (world s))) = true ->
    and_jitsiTrack vt = obj hd.

(** No track has the stored surface among its containers. *)
Definition surface_free {X} {E : Externals X} (s : State X) : Prop :=
  forall e hd,
    _videoElement (this s) = obj e ->
    includes e (track_containers hd (ext (world s))) = false.

(** While the component is mounted, only the JitsiTrack of its props can
    have the stored surface. *)
Definition held_by_props {X} {E : Externals X} (h : Host X) : Prop :=
  match instance h with
  | Some t =>
      held_by (videoTrack (props t))
        {| this := t; world := outside h; log := effects h |}
  | None => True
  end.

(** ** More conditions *)

(** A library whose [attach] returns nothing: the container is bound to the
    track as before, and the caller gets [undefined]. *)
Definition void_library : Externals (gmap nat (list nat)) :=
  {| track_attach := fun h container w =>
       (undefined, snd (example_attach (fun e => e) h container w));
     track_detach := example_detach;
     track_containers := fun h x => containers_of x h;
     run_callback := fun _ w => w |}.

(** The computation leaves [this.props] as it found it. *)
Definition keeps_props {X A} (m : M X A) : Prop :=
  forall s, props (this (final_state (m s))) = props (this s).

(** The surface [attach] returns is, after the call, among the containers of
    the track it was called on. *)
Definition attach_registers {X} (E : Externals X) : Prop :=
  forall h x w e',
    fst (track_attach h x w) = obj e' ->
    includes e' (track_containers h (ext (snd (track_attach h x w)))) = true.

(** The stored surface, when there is one, is among the containers of the
    JitsiTrack of [vt], when it has one. *)
Definition bound_to {X} {E : Externals X} (vt : js VideoTrack) (s : State X)
    : Prop :=
  forall e hd,
    _videoElement (this s) = obj e ->
    and_jitsiTrack vt = obj hd ->
    includes e (track_containers hd (ext (world s))) = true.

(** While the component is mounted, its surface is bound to the track of
    its props. *)
Definition bound_to_props {X} {E : Externals X} (h : Host X) : Prop :=
  match instance h with
  | Some t =>
      bound_to (videoTrack (props t))
        {| this := t; world := outside h; log := effects h |}
  | None => True
  end.

(** Mounted with JitsiTrack 7 on element 1 under the Temasys plugin. *)
Definition host_mounted_temasys : Host (gmap nat (list nat)) :=
  lifecycle (E:=temasys_library) (Mount (props_with (obj trackA)) 1)
    unmounted_host.

(** * Properties *)

(** ** The log and [includes] *)

Lemma new_events_app {X A} (s : State X) (o : Outcome X A) (evs : list Event) :
  log (final_state o) = log s ++ evs -> new_events s o = evs.
Proof.
  intros Hlog. unfold new_events. rewrite Hlog. apply drop_app_length.
Qed.

Lemma new_events_same {X A} (s : State X) (a : A) :
  new_events s (Normal a s) = [].
Proof.
  apply new_events_app. cbn. now rewrite app_nil_r.
Qed.

Lemma new_events_thrown {X A} (s : State X) (err : JsError) :
  new_events s (Thrown (A:=A) err s) = [].
Proof.
  apply new_events_app. cbn. now rewrite app_nil_r.
Qed.

Lemma includes_In (e : elem) (array : list elem) :
  includes e array = true <-> In e array.
Proof.
  induction array as [|c rest IH]; cbn.
  - split; [discriminate | tauto].
  - rewrite orb_true_iff, Nat.eqb_eq, IH. tauto.
Qed.

Lemma includes_filter_out (e : elem) (array : list elem) :
  includes e (List.filter (fun c => negb (Nat.eqb c e)) array) = false.
Proof.
  apply not_true_is_false. rewrite includes_In, filter_In.
  intros [_ Hne]. rewrite Nat.eqb_refl in Hne. discriminate.
Qed.

Lemma includes_filter_sub (e e' : elem) (array : list elem) :
  includes e' (List.filter (fun c => negb (Nat.eqb c e)) array) = true ->
  includes e' array = true.
Proof.
  rewrite !includes_In, filter_In. tauto.
Qed.

Lemma strict_eq_true (a b : js nat) : strict_eq a b = true <-> a = b.
Proof.
  destruct a, b; cbn; try (split; [discriminate | congruence]);
    try tauto.
  rewrite Nat.eqb_eq. split; congruence.
Qed.

Lemma and_jitsiTrack_obj (vt : js VideoTrack) (h : handle) :
  and_jitsiTrack vt = obj h <-> exists v, vt = obj v /\ jitsiTrack v = obj h.
Proof.
  split.
  - destruct vt; cbn; try discriminate. eauto.
  - intros (v & -> & Hv). exact Hv.
Qed.

(** ** The two internal operations *)

Section Methods.
Context {X : Type} {E : Externals X}.

Lemma absent_or_no_handle_falsy (vt : js VideoTrack) :
  absent_or_no_handle vt <-> truthy (and_jitsiTrack vt) = false.
Proof.
  unfold absent_or_no_handle. split.
  - intros [Hvt | (v & -> & Hv)]; [now destruct vt | exact Hv].
  - destruct vt as [| |v]; cbn; auto. intros Hv. right. eauto.
Qed.

Lemma _attachTrack_falsy (vt : js VideoTrack) (s : State X) :
  truthy (and_jitsiTrack vt) = false -> _attachTrack vt s = Normal tt s.
Proof.
  destruct vt as [| |v]; cbn; try reflexivity.
  destruct (jitsiTrack v); cbn; try reflexivity. discriminate.
Qed.

Lemma _attachTrack_handle (vt : js VideoTrack) (h : handle) (s : State X) :
  and_jitsiTrack vt = obj h ->
  _attachTrack vt s = Normal tt (after_attach h s).
Proof.
  intros (v & -> & Hv)%and_jitsiTrack_obj.
  unfold _attachTrack, after_attach. rewrite Hv.
  unfold bind, get_this, attach, _setVideoElement, put_this.
  destruct (track_attach h (_videoElement (this s)) (world s)) as [r w].
  reflexivity.
Qed.

Lemma detach_conditions_unique (t : Video) (vt : js VideoTrack)
    (w : World X) (h h' : handle) (e e' : elem) :
  detach_conditions t vt w h e -> detach_conditions t vt w h' e' ->
  h = h' /\ e = e'.
Proof.
  intros (He & v & Hv & Hh & _) (He' & v' & Hv' & Hh' & _).
  split; congruence.
Qed.

Lemma _detachTrack_holds (vt : js VideoTrack) (s : State X)
    (h : handle) (e : elem) :
  detach_conditions (this s) vt (world s) h e ->
  _detachTrack vt s = Normal tt (after_detach h e s).
Proof.
  intros (He & v & -> & Hh & Hin).
  unfold _detachTrack, bind, get_this. rewrite He, Hh.
  unfold containers_includes. rewrite Hin. reflexivity.
Qed.

Lemma _detachTrack_fails (vt : js VideoTrack) (s : State X) :
  (forall h e, ~ detach_conditions (this s) vt (world s) h e) ->
  _detachTrack vt s = Normal tt s.
Proof.
  intros Hno. unfold _detachTrack, bind, get_this.
  destruct (_videoElement (this s)) as [| |e] eqn:He; try reflexivity.
  destruct vt as [| |v]; try reflexivity.
  destruct (jitsiTrack v) as [| |h] eqn:Hh; try reflexivity.
  unfold containers_includes.
  destruct (includes e (track_containers h (ext (world s)))) eqn:Hin;
    [|reflexivity].
  exfalso. apply (Hno h e). split; [exact He|]. eauto.
Qed.

(** The guard of [_detachTrack] holds or it does not. *)
Lemma detach_conditions_dec (t : Video) (vt : js VideoTrack) (w : World X) :
  (exists h e, detach_conditions t vt w h e) \/
  (forall h e, ~ detach_conditions t vt w h e).
Proof.
  unfold detach_conditions.
  destruct (_videoElement t) as [| |e];
    try (right; intros h e' [He _]; discriminate).
  destruct vt as [| |v];
    try (right; intros h e' (_ & v' & Hv & _); discriminate).
  destruct (jitsiTrack v) as [| |h] eqn:Hh;
    try (right; intros h' e' (_ & v' & Hv & Hh' & _); congruence).
  destruct (includes e (track_containers h (ext w))) eqn:Hin.
  - left. exists h, e. eauto.
  - right. intros h' e' (He & v' & Hv & Hh' & Hin').
    assert (h' = h) by congruence. assert (e' = e) by congruence.
    subst. congruence.
Qed.

Lemma new_events_after_attach {A} (h : handle) (s : State X) (a : A) :
  new_events s (Normal a (after_attach h s))
  = [EvAttach h (_videoElement (this s))].
Proof. now apply new_events_app. Qed.

Lemma new_events_after_detach {A} (h : handle) (e : elem) (s : State X)
    (a : A) :
  new_events s (Normal a (after_detach h e s)) = [EvDetach h e].
Proof. now apply new_events_app. Qed.

End Methods.

(** ** Computations that write no property of an element *)

Section Quiet.
Context {X : Type} {E : Externals X}.

Lemma quiet_ret {A} (a : A) : quiet (X:=X) (ret a).
Proof. intros s. exists []. cbn. now rewrite app_nil_r. Qed.

Lemma quiet_bind {A B} (m : M X A) (k : A -> M X B) :
  quiet m -> (forall a, quiet (k a)) -> quiet (bind m k).
Proof.
  intros Hm Hk s. unfold bind.
  destruct (Hm s) as (evs & Hlog & Hev).
  destruct (m s) as [a s1 | err s1]; cbn in Hlog.
  - destruct (Hk a s1) as (evs' & Hlog' & Hev').
    exists (evs ++ evs'). split.
    + now rewrite Hlog', Hlog, app_assoc.
    + rewrite existsb_app, Hev, Hev'. reflexivity.
  - exists evs. now split.
Qed.

Lemma quiet_get_this : quiet (X:=X) get_this.
Proof. intros s. exists []. cbn. now rewrite app_nil_r. Qed.

Lemma quiet_put_this (t : Video) : quiet (X:=X) (put_this t).
Proof. intros s. exists []. cbn. now rewrite app_nil_r. Qed.

Lemma quiet_emit (ev : Event) (f : World X -> World X) :
  is_element_write ev = false -> quiet (X:=X) (emit ev f).
Proof. intros Hev s. exists [ev]. cbn. now rewrite Hev. Qed.

Lemma quiet_attach (h : handle) (x : js elem) : quiet (X:=X) (attach h x).
Proof.
  intros s. exists [EvAttach h x]. unfold attach.
  now destruct (track_attach h x (world s)).
Qed.

Lemma quiet_containers_includes (h : handle) (e : elem) :
  quiet (X:=X) (containers_includes h e).
Proof. intros s. exists []. cbn. now rewrite app_nil_r. Qed.

Lemma quiet_setVideoElement (x : js elem) : quiet (X:=X) (_setVideoElement x).
Proof.
  apply quiet_bind; [apply quiet_get_this | intros; apply quiet_put_this].
Qed.

Lemma quiet_onVideoPlaying : quiet (X:=X) _onVideoPlaying.
Proof.
  apply quiet_bind; [apply quiet_get_this | intros t].
  destruct (onVideoPlaying (props t)); try apply quiet_ret.
  now apply quiet_emit.
Qed.

Lemma quiet_attachTrack (vt : js VideoTrack) : quiet (X:=X) (_attachTrack vt).
Proof.
  destruct vt as [| |v]; try apply quiet_ret. cbn.
  destruct (jitsiTrack v); try apply quiet_ret.
  apply quiet_bind; [apply quiet_get_this | intros t].
  apply quiet_bind; [apply quiet_attach | intros r].
  apply quiet_setVideoElement.
Qed.

Lemma quiet_detachTrack (vt : js VideoTrack) : quiet (X:=X) (_detachTrack vt).
Proof.
  apply quiet_bind; [apply quiet_get_this | intros t].
  destruct (_videoElement t); try apply quiet_ret.
  destruct vt as [| |v]; try apply quiet_ret.
  destruct (jitsiTrack v); try apply quiet_ret.
  apply quiet_bind; [apply quiet_containers_includes | intros [|]].
  - now apply quiet_emit.
  - apply quiet_ret.
Qed.

Lemma quiet_componentWillUnmount : quiet (X:=X) componentWillUnmount.
Proof.
  apply quiet_bind; [apply quiet_get_this | intros t].
  apply quiet_detachTrack.
Qed.

Lemma quiet_shouldComponentUpdate (nextProps : Props) :
  quiet (X:=X) (shouldComponentUpdate nextProps).
Proof.
  apply quiet_bind; [apply quiet_get_this | intros t]. cbv zeta.
  apply quiet_bind; [| intros; apply quiet_ret].
  destruct (strict_neq _ _); [| apply quiet_ret].
  apply quiet_bind; [apply quiet_detachTrack | intros].
  apply quiet_attachTrack.
Qed.

Lemma quiet_new_events {A} (m : M X A) (s : State X) :
  quiet m -> existsb is_element_write (new_events s (m s)) = false.
Proof.
  intros Hm. destruct (Hm s) as (evs & Hlog & Hev).
  now rewrite (new_events_app _ _ _ Hlog).
Qed.

End Quiet.

(** ** The hooks *)

Section Hooks.
Context {X : Type} {E : Externals X}.

Lemma dom_get_update (e : elem) (f : DomElement -> DomElement)
    (w : World X) :
  dom_get (dom_update e f w) e = f (dom_get w e).
Proof.
  unfold dom_get at 1, dom_update. cbn. now rewrite lookup_insert_eq.
Qed.

(** With a surface stored, [componentDidMount] is the two writes on that
    surface and then [_attachTrack] on the track of the props. *)
Lemma componentDidMount_surface (s : State X) (el : elem) :
  _videoElement (this s) = obj el ->
  exists s1,
    componentDidMount s = _attachTrack (videoTrack (props (this s))) s1 /\
    this s1 = this s /\
    log s1 = log s ++ [EvSetVolume el 0;
                       EvSetOnplaying el Bound_onVideoPlaying] /\
    volume (dom_get (world s1) el) = 0%Z /\
    onplaying (dom_get (world s1) el) = Some Bound_onVideoPlaying /\
    ext (world s1) = ext (world s).
Proof.
  intros Hel. eexists. split.
  - unfold componentDidMount, bind, get_this. rewrite Hel. cbn.
    rewrite Hel. cbn. reflexivity.
  - cbn. rewrite <- app_assoc. repeat split.
    + now rewrite !dom_get_update.
    + now rewrite !dom_get_update.
Qed.

Lemma shouldComponentUpdate_unfold (nextProps : Props) (s : State X) :
  shouldComponentUpdate nextProps s
  = if strict_neq (and_jitsiTrack (videoTrack (props (this s))))
         (and_jitsiTrack (videoTrack nextProps))
    then Normal false
           (final_state
              (_attachTrack (videoTrack nextProps)
                 (final_state (_detachTrack (videoTrack (props (this s))) s))))
    else Normal false s.
Proof.
  unfold shouldComponentUpdate, bind at 1, get_this.
  destruct (strict_neq _ _); [| reflexivity].
  unfold bind.
  destruct (detach_conditions_dec (this s) (videoTrack (props (this s)))
              (world s)) as [(h & e & Hd) | Hd].
  - rewrite (_detachTrack_holds _ _ _ _ Hd). cbn [final_state].
    destruct (and_jitsiTrack (videoTrack nextProps)) as [| |hn] eqn:Hn.
    + now rewrite _attachTrack_falsy by now rewrite Hn.
    + now rewrite _attachTrack_falsy by now rewrite Hn.
    + now rewrite (_attachTrack_handle _ _ _ Hn).
  - rewrite (_detachTrack_fails _ _ Hd). cbn [final_state].
    destruct (and_jitsiTrack (videoTrack nextProps)) as [| |hn] eqn:Hn.
    + now rewrite _attachTrack_falsy by now rewrite Hn.
    + now rewrite _attachTrack_falsy by now rewrite Hn.
    + now rewrite (_attachTrack_handle _ _ _ Hn).
Qed.

(** C1.  Whatever the current and the next props are, the track changed or
    not, [shouldComponentUpdate] returns [false]: React never re-renders the
    component on new props. *)
Theorem shouldComponentUpdate_always_false (nextProps : Props)
    (s : State X) :
  returned (shouldComponentUpdate nextProps s) = Some false.
Proof.
  rewrite shouldComponentUpdate_unfold.
  now destruct (strict_neq _ _).
Qed.

(** C3.  When the current and the next props hold the identical JitsiTrack
    (the [jitsiTrack] fields are the same reference, whatever the records
    around them are), [shouldComponentUpdate] leaves the state as it is: it
    makes no call of [attach] and no call of [detach], and answers
    [false]. *)
Theorem shouldComponentUpdate_same_handle (nextProps : Props)
    (s : State X) :
  strict_eq (and_jitsiTrack (videoTrack (props (this s))))
    (and_jitsiTrack (videoTrack nextProps)) = true ->
  shouldComponentUpdate nextProps s = Normal false s /\
  List.filter is_library_call
    (new_events s (shouldComponentUpdate nextProps s)) = [].
Proof.
  intros Hsame. rewrite shouldComponentUpdate_unfold.
  unfold strict_neq. rewrite Hsame. cbn [negb].
  split; [reflexivity | now rewrite new_events_same].
Qed.

(** C2, as the code has it.  When the JitsiTrack of the next props is not
    the one of the current props, [shouldComponentUpdate] runs
    [_detachTrack] on the current track, then [_attachTrack] on the next
    one, and answers [false].  Its calls into the library are, in this
    order: one [detach] of the stored surface on the current JitsiTrack when
    the four conditions of a detach hold, none when they do not; then one
    [attach] of the stored surface on the next JitsiTrack when the next
    track has one, none when it has not. *)
Theorem shouldComponentUpdate_track_changed (nextProps : Props)
    (s : State X) :
  strict_neq (and_jitsiTrack (videoTrack (props (this s))))
    (and_jitsiTrack (videoTrack nextProps)) = true ->
  let current := videoTrack (props (this s)) in
  let next := videoTrack nextProps in
  shouldComponentUpdate nextProps s
  = Normal false
      (final_state (_attachTrack next (final_state (_detachTrack current s))))
  /\ exists detaches attaches,
      new_events s (shouldComponentUpdate nextProps s)
      = detaches ++ attaches /\
      ((exists h e, detach_conditions (this s) current (world s) h e /\
                    detaches = [EvDetach h e]) \/
       ((forall h e, ~ detach_conditions (this s) current (world s) h e) /\
        detaches = [])) /\
      ((exists h, and_jitsiTrack next = obj h /\
                  attaches = [EvAttach h (_videoElement (this s))]) \/
       (absent_or_no_handle next /\ attaches = [])).
Proof.
  intros Hchanged current next.
  rewrite shouldComponentUpdate_unfold. rewrite Hchanged.
  split; [reflexivity |]. fold current next.
  destruct (detach_conditions_dec (this s) current (world s))
    as [(h & e & Hd) | Hd].
  - rewrite (_detachTrack_holds _ _ _ _ Hd). cbn [final_state].
    destruct (and_jitsiTrack next) as [| |hn] eqn:Hn.
    1,2: rewrite _attachTrack_falsy by now rewrite Hn.
    1,2: exists [EvDetach h e], []; cbn [final_state];
      rewrite new_events_after_detach; split; [reflexivity |];
      split; [left; eauto | right; split; [| reflexivity]];
      apply absent_or_no_handle_falsy; now rewrite Hn.
    rewrite (_attachTrack_handle _ _ _ Hn). cbn [final_state].
    exists [EvDetach h e], [EvAttach hn (_videoElement (this s))].
    split; [| split; [left; eauto | left; eauto]].
    apply new_events_app. cbn. now rewrite <- app_assoc.
  - rewrite (_detachTrack_fails _ _ Hd). cbn [final_state].
    destruct (and_jitsiTrack next) as [| |hn] eqn:Hn.
    1,2: rewrite _attachTrack_falsy by now rewrite Hn.
    1,2: exists [], []; cbn [final_state];
      rewrite new_events_same; split; [reflexivity |];
      split; [right; eauto | right; split; [| reflexivity]];
      apply absent_or_no_handle_falsy; now rewrite Hn.
    rewrite (_attachTrack_handle _ _ _ Hn). cbn [final_state].
    exists [], [EvAttach hn (_videoElement (this s))].
    rewrite new_events_after_attach.
    split; [reflexivity | split; [right; eauto | left; eauto]].
Qed.

End Hooks.

(** ** Attaching, detaching, mounting *)

Section Operations.
Context {X : Type} {E : Externals X}.

Lemma new_events_detachTrack (vt : js VideoTrack) (s : State X) :
  (exists h e, detach_conditions (this s) vt (world s) h e /\
               new_events s (_detachTrack vt s) = [EvDetach h e]) \/
  ((forall h e, ~ detach_conditions (this s) vt (world s) h e) /\
   new_events s (_detachTrack vt s) = []).
Proof.
  destruct (detach_conditions_dec (this s) vt (world s))
    as [(h & e & Hd) | Hd].
  - left. exists h, e. split; [exact Hd |].
    rewrite (_detachTrack_holds _ _ _ _ Hd). apply new_events_after_detach.
  - right. split; [exact Hd |].
    rewrite (_detachTrack_fails _ _ Hd). apply new_events_same.
Qed.

(** C4.  After [_attachTrack] on a track that is there and has a
    JitsiTrack, [_videoElement] is the value the library's [attach]
    returned, whatever surface was passed to it; and a [_detachTrack] that
    runs while that value is stored passes that value, and no other, to the
    library's [detach], after looking for that value in the containers. *)
Theorem _attachTrack_stores_returned_surface (vt : js VideoTrack)
    (h : handle) (s : State X) :
  and_jitsiTrack vt = obj h ->
  let returned_surface :=
    fst (track_attach h (_videoElement (this s)) (world s)) in
  let s' := final_state (_attachTrack vt s) in
  _videoElement (this s') = returned_surface /\
  forall (vt2 : js VideoTrack) (s2 : State X) (ev : Event),
    _videoElement (this s2) = _videoElement (this s') ->
    In ev (new_events s2 (_detachTrack vt2 s2)) ->
    exists h2 e,
      returned_surface = obj e /\ ev = EvDetach h2 e /\
      and_jitsiTrack vt2 = obj h2 /\
      includes e (track_containers h2 (ext (world s2))) = true.
Proof.
  intros Hh returned_surface s'. subst s'.
  rewrite (_attachTrack_handle _ _ _ Hh). cbn [final_state].
  split; [reflexivity |].
  intros vt2 s2 ev Hstored Hev.
  destruct (new_events_detachTrack vt2 s2)
    as [(h2 & e & Hd & Hnew) | [_ Hnew]]; rewrite Hnew in Hev.
  - destruct Hev as [<- | []]. exists h2, e.
    destruct Hd as (He & v & -> & Hv & Hin).
    repeat split; try assumption.
    rewrite <- He, Hstored. reflexivity.
  - destruct Hev.
Qed.

(** C5.  [_detachTrack] calls the library's [detach] exactly when the four
    conditions hold, and then once, with the stored surface, on the
    JitsiTrack of the track; when one of them fails the state is left as it
    is.  [componentWillUnmount] is [_detachTrack] on the track of the props,
    so unmounting calls [detach] exactly when the four conditions hold for
    that track. *)
Theorem _detachTrack_calls_detach_iff (vt : js VideoTrack) (s : State X) :
  ((exists h e, detach_conditions (this s) vt (world s) h e)
   <-> existsb is_detach (new_events s (_detachTrack vt s)) = true) /\
  (forall h e, detach_conditions (this s) vt (world s) h e ->
     _detachTrack vt s = Normal tt (after_detach h e s) /\
     new_events s (_detachTrack vt s) = [EvDetach h e]) /\
  ((forall h e, ~ detach_conditions (this s) vt (world s) h e) ->
     _detachTrack vt s = Normal tt s) /\
  componentWillUnmount s = _detachTrack (videoTrack (props (this s))) s /\
  ((exists h e,
      detach_conditions (this s) (videoTrack (props (this s))) (world s) h e)
   <-> existsb is_detach (new_events s (componentWillUnmount s)) = true).
Proof.
  assert (Hiff : forall vt0,
    (exists h e, detach_conditions (this s) vt0 (world s) h e)
    <-> existsb is_detach (new_events s (_detachTrack vt0 s)) = true).
  { intros vt0.
    destruct (new_events_detachTrack vt0 s)
      as [(h & e & Hd & Hnew) | [Hd Hnew]]; rewrite Hnew; cbn.
    - split; eauto.
    - split; [intros (h & e & Hd') | discriminate].
      now destruct (Hd h e). }
  split; [apply Hiff |].
  split.
  { intros h e Hd. rewrite (_detachTrack_holds _ _ _ _ Hd).
    split; [reflexivity | apply new_events_after_detach]. }
  split; [apply _detachTrack_fails |].
  split; [reflexivity |].
  change (componentWillUnmount s)
    with (_detachTrack (videoTrack (props (this s))) s).
  apply Hiff.
Qed.

(** C8.  On a track that is absent, or that has no JitsiTrack,
    [_attachTrack] does nothing: no call into the library, the stored
    surface and the rest of the state as they were.  So a mount whose props
    have no such track makes no call of [attach] and leaves the stored
    surface as React set it. *)
Theorem _attachTrack_without_handle (vt : js VideoTrack) (s : State X) :
  absent_or_no_handle vt ->
  _attachTrack vt s = Normal tt s /\
  (videoTrack (props (this s)) = vt ->
   existsb is_library_call (new_events s (componentDidMount s)) = false /\
   _videoElement (this (final_state (componentDidMount s)))
   = _videoElement (this s)).
Proof.
  intros Hvt%absent_or_no_handle_falsy.
  split; [now apply _attachTrack_falsy |].
  intros Hprops.
  destruct (_videoElement (this s)) as [| |el] eqn:Hel.
  1,2: unfold componentDidMount, bind, get_this; rewrite Hel; cbn;
    split; [now rewrite new_events_thrown | exact Hel].
  destruct (componentDidMount_surface s el Hel)
    as (s1 & -> & Hthis & Hlog & _).
  rewrite Hprops, (_attachTrack_falsy _ _ Hvt). cbn [final_state].
  split; [| now rewrite Hthis].
  now rewrite (new_events_app s (Normal tt s1) _ Hlog).
Qed.

(** C7.  With the surface stored, [componentDidMount] first sets the volume
    of the surface to zero and its [onplaying] to [_onVideoPlaying], and only
    then runs [_attachTrack] on the track of the props, in a world where both
    writes are done.  With a track that has a JitsiTrack the effects of the
    mount are the two writes and one call of [attach] of the surface.  The
    registered handler calls the [onVideoPlaying] of the props when there is
    one and nothing otherwise. *)
Theorem componentDidMount_mutes_then_attaches (s : State X) (el : elem) :
  _videoElement (this s) = obj el ->
  (exists s1,
     componentDidMount s = _attachTrack (videoTrack (props (this s))) s1 /\
     this s1 = this s /\
     log s1 = log s ++ [EvSetVolume el 0;
                        EvSetOnplaying el Bound_onVideoPlaying] /\
     volume (dom_get (world s1) el) = 0%Z /\
     onplaying (dom_get (world s1) el) = Some Bound_onVideoPlaying) /\
  (forall h, and_jitsiTrack (videoTrack (props (this s))) = obj h ->
     new_events s (componentDidMount s)
     = [EvSetVolume el 0; EvSetOnplaying el Bound_onVideoPlaying;
        EvAttach h (obj el)] /\
     length (List.filter is_attach (new_events s (componentDidMount s))) = 1) /\
  (forall s2 : State X,
     (onplaying (dom_get (world s2) el) = Some Bound_onVideoPlaying ->
      dispatch_playing el s2 = _onVideoPlaying s2) /\
     new_events s2 (_onVideoPlaying s2)
     = match onVideoPlaying (props (this s2)) with
       | obj cb => [EvCallback cb]
       | _ => []
       end).
Proof.
  intros Hel.
  destruct (componentDidMount_surface s el Hel)
    as (s1 & Hrun & Hthis & Hlog & Hvol & Hon & _).
  split; [exists s1; auto |].
  split.
  - intros h Hh.
    assert (Hnew : new_events s (componentDidMount s)
                   = [EvSetVolume el 0;
                      EvSetOnplaying el Bound_onVideoPlaying;
                      EvAttach h (obj el)]).
    { rewrite Hrun, (_attachTrack_handle _ _ _ Hh).
      apply new_events_app. cbn. rewrite Hlog, Hthis, Hel.
      now rewrite <- app_assoc. }
    rewrite Hnew. split; reflexivity.
  - intros s2. split.
    + intros Hreg. unfold dispatch_playing. now rewrite Hreg.
    + unfold _onVideoPlaying, bind, get_this.
      destruct (onVideoPlaying (props (this s2))).
      * apply new_events_same.
      * apply new_events_same.
      * now apply new_events_app.
Qed.

(** C9.  [volume] and [onplaying] are written by [componentDidMount] only,
    and on the surface stored at that time only.  [_attachTrack],
    [_detachTrack], [shouldComponentUpdate], [componentWillUnmount],
    [_setVideoElement] and [_onVideoPlaying] write neither; when [attach]
    returns another surface, [_attachTrack] stores it and leaves the world as
    the library returned it. *)
Theorem element_writes_only_in_componentDidMount (s : State X) :
  (forall vt,
     existsb is_element_write (new_events s (_attachTrack vt s)) = false) /\
  (forall vt,
     existsb is_element_write (new_events s (_detachTrack vt s)) = false) /\
  (forall nextProps,
     existsb is_element_write
       (new_events s (shouldComponentUpdate nextProps s)) = false) /\
  existsb is_element_write (new_events s (componentWillUnmount s)) = false /\
  (forall x,
     existsb is_element_write (new_events s (_setVideoElement x s)) = false) /\
  existsb is_element_write (new_events s (_onVideoPlaying s)) = false /\
  (forall vt h,
     and_jitsiTrack vt = obj h ->
     let r := track_attach h (_videoElement (this s)) (world s) in
     _videoElement (this (final_state (_attachTrack vt s))) = fst r /\
     world (final_state (_attachTrack vt s)) = snd r) /\
  (forall el ev,
     _videoElement (this s) = obj el ->
     In ev (new_events s (componentDidMount s)) ->
     is_element_write ev = true ->
     write_target ev = Some el).
Proof.
  split; [intros; apply quiet_new_events, quiet_attachTrack |].
  split; [intros; apply quiet_new_events, quiet_detachTrack |].
  split; [intros; apply quiet_new_events, quiet_shouldComponentUpdate |].
  split; [apply quiet_new_events, quiet_componentWillUnmount |].
  split; [intros; apply quiet_new_events, quiet_setVideoElement |].
  split; [apply quiet_new_events, quiet_onVideoPlaying |].
  split.
  - intros vt h Hh r. now rewrite (_attachTrack_handle _ _ _ Hh).
  - intros el ev Hel Hin Hwrite.
    destruct (componentDidMount_surface s el Hel)
      as (s1 & Hrun & _ & Hlog & _).
    destruct (quiet_attachTrack (videoTrack (props (this s))) s1)
      as (evs & Hlog' & Hquiet).
    rewrite <- Hrun, Hlog, <- app_assoc in Hlog'.
    rewrite (new_events_app _ _ _ Hlog') in Hin.
    destruct Hin as [<- | [<- | Hin]]; try reflexivity.
    assert (Hex : existsb is_element_write evs = true)
      by (apply existsb_exists; eauto).
    congruence.
Qed.

(** C10.  What [render] returns is made of [className] and [id] alone: a
    [div] around one [video] with [autoPlay], the two strings and the ref
    callback.  Two instances whose props agree on [className] and [id]
    render the same, whatever their tracks, their [onVideoPlaying] and the
    surfaces they hold. *)
Theorem render_depends_on_className_and_id (t1 t2 : Video) :
  className (props t1) = className (props t2) ->
  id (props t1) = id (props t2) ->
  render t1 = render t2 /\
  render t1
  = Element "div" []
      [ Element "video"
          [ ("autoPlay"%string, AttrBool true);
            ("className"%string, AttrString (className (props t1)));
            ("id"%string, AttrString (id (props t1)));
            ("ref"%string, AttrRef Bound_setVideoElement) ]
          [] ].
Proof.
  intros Hclass Hid. unfold render. now rewrite Hclass, Hid.
Qed.

End Operations.

(** ** One track per surface *)

Section OneTrack.
Context {X : Type} {E : Externals X}.
Hypothesis contract : TrackContract E.

Lemma _detachTrack_frees (vt : js VideoTrack) (s : State X) :
  held_by vt s ->
  surface_free (final_state (_detachTrack vt s)) /\
  this (final_state (_detachTrack vt s)) = this s.
Proof.
  intros Hheld.
  destruct (detach_conditions_dec (this s) vt (world s))
    as [(h & e & Hd) | Hd].
  - rewrite (_detachTrack_holds _ _ _ _ Hd). cbn.
    split; [| reflexivity].
    intros e' hd He'. cbn in He'.
    apply not_true_is_false. intros Hin.
    change (includes e' (track_containers hd
              (ext (track_detach h e (world s)))) = true) in Hin.
    pose proof Hd as (He & v & Hv & Hh & _).
    assert (e' = e) by congruence. subst e'.
    pose proof (detach_adds_nothing contract _ _ _ _ _ Hin) as Hbefore.
    pose proof (Hheld e hd He Hbefore) as Hhd.
    subst vt. cbn in Hhd.
    assert (hd = h) by congruence. subst hd.
    rewrite (detach_removes contract) in Hin. discriminate.
  - rewrite (_detachTrack_fails _ _ Hd). cbn.
    split; [| reflexivity].
    intros e hd He. apply not_true_is_false. intros Hin.
    pose proof (Hheld e hd He Hin) as (v & Hv & Hh)%and_jitsiTrack_obj.
    apply (Hd hd e). split; [exact He |]. eauto.
Qed.

Lemma _attachTrack_holds_surface (vt : js VideoTrack) (s : State X) :
  surface_free s ->
  held_by vt (final_state (_attachTrack vt s)) /\
  props (this (final_state (_attachTrack vt s))) = props (this s).
Proof.
  intros Hfree.
  destruct (and_jitsiTrack vt) as [| |hn] eqn:Hn.
  1,2: rewrite _attachTrack_falsy by (now rewrite Hn); cbn;
    split; [| reflexivity]; intros e hd He Hin;
    rewrite (Hfree e hd He) in Hin; discriminate.
  rewrite (_attachTrack_handle _ _ _ Hn). cbn.
  split; [| reflexivity].
  intros e' hd He' Hin. cbn in He', Hin.
  destruct (Nat.eq_dec hd hn) as [-> | Hne]; [exact Hn |].
  exfalso.
  rewrite (attach_other contract) in Hin by exact Hne.
  destruct (attach_returns contract _ _ _ _ He') as [Hsame | Hnew].
  - rewrite (Hfree e' hd Hsame) in Hin. discriminate.
  - rewrite (Hnew hd Hne) in Hin. discriminate.
Qed.

Lemma held_by_same_handle (vt vt' : js VideoTrack) (s : State X) :
  and_jitsiTrack vt = and_jitsiTrack vt' -> held_by vt s -> held_by vt' s.
Proof.
  intros Heq Hheld e hd He Hin. rewrite <- Heq. now apply (Hheld e hd).
Qed.

Lemma shouldComponentUpdate_keeps_held (nextProps : Props) (s : State X) :
  held_by (videoTrack (props (this s))) s ->
  held_by (videoTrack nextProps)
    (final_state (shouldComponentUpdate nextProps s)).
Proof.
  intros Hheld. rewrite shouldComponentUpdate_unfold.
  destruct (strict_neq _ _) eqn:Hneq; cbn [final_state].
  - apply _attachTrack_holds_surface.
    now apply _detachTrack_frees.
  - apply negb_false_iff, strict_eq_true in Hneq.
    now apply (held_by_same_handle _ _ _ Hneq).
Qed.

Lemma mount_holds (p : Props) (el : elem) (w : World X)
    (evs : list Event) :
  (forall hd, includes el (track_containers hd (ext w)) = false) ->
  let o := mount el {| this := constructor p; world := w; log := evs |} in
  held_by (videoTrack p) (final_state o) /\
  props (this (final_state o)) = p.
Proof.
  intros Hnew o. subst o.
  set (s0 := {| this := {| props := p; _videoElement := obj el |};
                world := w; log := evs |}).
  change (mount el {| this := constructor p; world := w; log := evs |})
    with (componentDidMount s0).
  destruct (componentDidMount_surface s0 el eq_refl)
    as (s1 & -> & Hthis & _ & _ & _ & Hext).
  assert (Hfree : surface_free s1).
  { intros e hd He. rewrite Hthis in He. cbn in He.
    injection He as <-. rewrite Hext. apply Hnew. }
  destruct (_attachTrack_holds_surface (videoTrack (props (this s0))) s1 Hfree)
    as [Hheld Hprops].
  split; [exact Hheld |]. now rewrite Hprops, Hthis.
Qed.

Lemma lifecycle_keeps_held (op : Lifecycle) (h : Host X) :
  admissible op h -> held_by_props h -> held_by_props (lifecycle op h).
Proof.
  intros Hadm Hheld. unfold lifecycle.
  destruct op as [p el | nextProps |]; destruct (instance h) as [t|] eqn:Ht;
    try exact Hheld.
  - unfold held_by_props, host_of, run_on. cbn [instance outside effects].
    destruct (mount_holds p el (outside h) (effects h) Hadm) as [Hm Hp].
    rewrite Hp.
    now destruct (final_state _) as [t' w' l'].
  - unfold held_by_props in Hheld. rewrite Ht in Hheld.
    unfold held_by_props, host_of, run_on, update, bind, get_this, put_this.
    cbn [instance outside effects].
    set (s := {| this := t; world := outside h; log := effects h |}) in *.
    pose proof (shouldComponentUpdate_keeps_held nextProps s Hheld) as Hnext.
    rewrite shouldComponentUpdate_unfold in Hnext |- *.
    destruct (strict_neq _ _); cbn [final_state this world log props] in *;
      exact Hnext.
  - unfold held_by_props, host_of. cbn [instance]. exact I.
Qed.

Lemma reachable_held (h : Host X) : reachable h -> held_by_props h.
Proof.
  induction 1 as [w | op h Hreach IH Hadm].
  - exact I.
  - now apply lifecycle_keeps_held.
Qed.

(** C6.  With a track library that keeps its containers as JitsiTrack does,
    in every state reached from the unmounted one by mounts, updates and
    unmounts, the tracks whose containers include the stored surface are at
    most one. *)
Theorem reachable_at_most_one_track (h : Host X) :
  reachable h -> at_most_one_track h.
Proof.
  intros Hheld%reachable_held e h1 h2 Hstored Hin1 Hin2.
  unfold held_by_props in Hheld. unfold stored_surface in Hstored.
  destruct (instance h) as [t|]; [| discriminate].
  pose proof (Hheld e h1 Hstored Hin1) as H1.
  pose proof (Hheld e h2 Hstored Hin2) as H2.
  congruence.
Qed.

End OneTrack.

(** ** The component at work *)

Example mounted_with_trackA_log :
  log mounted_with_trackA
  = [EvSetVolume 1 0; EvSetOnplaying 1 Bound_onVideoPlaying;
     EvAttach 7 (obj 1)]
  /\ _videoElement (this mounted_with_trackA) = obj 1
  /\ track_containers (Externals:=webrtc_library) 7
       (ext (world mounted_with_trackA)) = [1]
  /\ volume (dom_get (world mounted_with_trackA) 1) = 0%Z.
Proof. repeat split; reflexivity. Qed.

(** The example of the specification: mount with a track, change the track,
    give the same track again, unmount. *)
Example lifecycle_example :
  effects
    (lifecycles (E:=webrtc_library)
       [Mount (props_with (obj trackA)) 1;
        Update (props_with (obj trackB));
        Update (props_with (obj trackB));
        Unmount]
       unmounted_host)
  = [EvSetVolume 1 0; EvSetOnplaying 1 Bound_onVideoPlaying;
     EvAttach 7 (obj 1);
     EvDetach 7 1; EvAttach 8 (obj 1);
     EvDetach 8 1].
Proof. reflexivity. Qed.

(** Under the Temasys plugin the surface changes at every attach, and the
    detach that follows is given the new one. *)
Example temasys_example :
  effects
    (lifecycles (E:=temasys_library)
       [Mount (props_with (obj trackA)) 1;
        Update (props_with (obj trackB));
        Unmount]
       unmounted_host)
  = [EvSetVolume 1 0; EvSetOnplaying 1 Bound_onVideoPlaying;
     EvAttach 7 (obj 1);
     EvDetach 7 101; EvAttach 8 (obj 101);
     EvDetach 8 201].
Proof. reflexivity. Qed.

Lemma containers_of_insert (x : gmap nat (list nat)) (h h' : handle)
    (cs : list elem) :
  containers_of (<[h := cs]> x) h'
  = if Nat.eqb h h' then cs else containers_of x h'.
Proof.
  unfold containers_of. destruct (Nat.eqb_spec h h') as [-> | Hne].
  - now rewrite lookup_insert_eq.
  - now rewrite lookup_insert_ne.
Qed.

(** The library of a browser with WebRTC keeps the contract. *)
Lemma webrtc_contract : TrackContract webrtc_library.
Proof.
  split.
  - intros h x w h' Hne. destruct x as [| |e]; try reflexivity. cbn.
    rewrite containers_of_insert.
    destruct (Nat.eqb_spec h h'); [congruence | reflexivity].
  - intros h x w e' Hret. left. destruct x as [| |e]; exact Hret.
  - intros h e w. cbn. rewrite containers_of_insert, Nat.eqb_refl.
    apply includes_filter_out.
  - intros h e w h' e'. cbn. rewrite containers_of_insert.
    destruct (Nat.eqb_spec h h') as [-> | Hne]; [| trivial].
    apply includes_filter_sub.
Qed.

Lemma host_after_track_change_reachable :
  reachable (E:=webrtc_library) host_after_track_change.
Proof.
  unfold host_after_track_change.
  apply reachable_lifecycle; [| exact I].
  apply reachable_lifecycle; [apply reachable_unmounted |].
  intros hd. reflexivity.
Qed.

Section InABrowser.
#[local] Existing Instance webrtc_library.

(** C2, as stated, fails: the first track given to a component mounted
    without one is another JitsiTrack than the (absent) current one, and the
    update makes one call of [attach] and no call of [detach]. *)
Lemma shouldComponentUpdate_first_track_no_detach :
  let s := state_with (props_with undefined) (obj 1) in
  let nextProps := props_with (obj trackA) in
  strict_neq (and_jitsiTrack (videoTrack (props (this s))))
    (and_jitsiTrack (videoTrack nextProps)) = true /\
  new_events s (shouldComponentUpdate (E:=webrtc_library) nextProps s)
  = [EvAttach 7 (obj 1)] /\
  ~ one_detach_then_one_attach (videoTrack (props (this s)))
      (videoTrack nextProps)
      (new_events s (shouldComponentUpdate (E:=webrtc_library) nextProps s)).
Proof.
  cbv zeta. split; [reflexivity |]. split; [reflexivity |].
  intros (hc & e & hn & x & _ & _ & Hevs).
  vm_compute in Hevs. discriminate Hevs.
Qed.

(** Taking the track away is a change too: one [detach], no [attach]. *)
Example shouldComponentUpdate_track_removed :
  new_events mounted_with_trackA
    (shouldComponentUpdate (E:=webrtc_library) (props_with null)
       mounted_with_trackA)
  = [EvDetach 7 1].
Proof. reflexivity. Qed.

(** C2 as the code has it, on the mounted component given JitsiTrack 8 in
    the place of JitsiTrack 7. *)
Lemma shouldComponentUpdate_track_changed_witness :
  let s := mounted_with_trackA in
  let nextProps := props_with (obj trackB) in
  strict_neq (and_jitsiTrack (videoTrack (props (this s))))
    (and_jitsiTrack (videoTrack nextProps)) = true /\
  (let current := videoTrack (props (this s)) in
   let next := videoTrack nextProps in
   shouldComponentUpdate (E:=webrtc_library) nextProps s
   = Normal false
       (final_state (_attachTrack next (final_state (_detachTrack current s))))
   /\ exists detaches attaches,
       new_events s (shouldComponentUpdate nextProps s)
       = detaches ++ attaches /\
       ((exists h e, detach_conditions (this s) current (world s) h e /\
                     detaches = [EvDetach h e]) \/
        ((forall h e, ~ detach_conditions (this s) current (world s) h e) /\
         detaches = [])) /\
       ((exists h, and_jitsiTrack next = obj h /\
                   attaches = [EvAttach h (_videoElement (this s))]) \/
        (absent_or_no_handle next /\ attaches = []))).
Proof.
  intros s nextProps. split; [reflexivity |].
  apply (shouldComponentUpdate_track_changed (E:=webrtc_library) nextProps s).
  reflexivity.
Defined.

(** C3 on two redux records around the same JitsiTrack. *)
Lemma shouldComponentUpdate_same_handle_witness :
  let s := state_with (props_with (obj trackA)) (obj 1) in
  let nextProps := props_with (obj trackA') in
  strict_eq (and_jitsiTrack (videoTrack (props (this s))))
    (and_jitsiTrack (videoTrack nextProps)) = true /\
  (shouldComponentUpdate (E:=webrtc_library) nextProps s = Normal false s /\
   List.filter is_library_call
     (new_events s (shouldComponentUpdate (E:=webrtc_library) nextProps s))
   = []).
Proof.
  intros s nextProps. split; [reflexivity |].
  apply (shouldComponentUpdate_same_handle (E:=webrtc_library) nextProps s).
  reflexivity.
Defined.

(** C4 under the Temasys plugin: element 1 goes in, object 101 comes back
    and is stored. *)
Lemma _attachTrack_stores_returned_surface_witness :
  let s := state_with (props_with (obj trackA)) (obj 1) in
  and_jitsiTrack (obj trackA) = obj 7 /\
  (let returned_surface :=
     fst (track_attach (Externals:=temasys_library) 7
            (_videoElement (this s)) (world s)) in
   let s' := final_state (_attachTrack (E:=temasys_library) (obj trackA) s) in
   returned_surface = obj 101 /\
   _videoElement (this s') = returned_surface /\
   forall (vt2 : js VideoTrack) (s2 : State (gmap nat (list nat)))
          (ev : Event),
     _videoElement (this s2) = _videoElement (this s') ->
     In ev (new_events s2 (_detachTrack (E:=temasys_library) vt2 s2)) ->
     exists h2 e,
       returned_surface = obj e /\ ev = EvDetach h2 e /\
       and_jitsiTrack vt2 = obj h2 /\
       includes e (track_containers (Externals:=temasys_library) h2
                     (ext (world s2))) = true).
Proof.
  intros s. split; [reflexivity |]. split; [reflexivity |].
  apply (_attachTrack_stores_returned_surface (E:=temasys_library)
           (obj trackA) 7 s).
  reflexivity.
Defined.

(** C6 on the host mounted with one track and updated to another. *)
Lemma reachable_at_most_one_track_witness :
  TrackContract webrtc_library /\
  reachable (E:=webrtc_library) host_after_track_change /\
  stored_surface host_after_track_change = obj 1 /\
  at_most_one_track (E:=webrtc_library) host_after_track_change.
Proof.
  split; [exact webrtc_contract |].
  split; [exact host_after_track_change_reachable |].
  split; [reflexivity |].
  apply (reachable_at_most_one_track webrtc_contract).
  exact host_after_track_change_reachable.
Defined.

(** C7 on a component that React gave element 1 and a track. *)
Lemma componentDidMount_mutes_then_attaches_witness :
  let s := state_with (props_with (obj trackA)) (obj 1) in
  _videoElement (this s) = obj 1 /\
  new_events s (componentDidMount (E:=webrtc_library) s)
  = [EvSetVolume 1 0; EvSetOnplaying 1 Bound_onVideoPlaying;
     EvAttach 7 (obj 1)] /\
  length (List.filter is_attach
            (new_events s (componentDidMount (E:=webrtc_library) s))) = 1.
Proof.
  intros s. split; [reflexivity |].
  apply (componentDidMount_mutes_then_attaches (E:=webrtc_library) s 1
           eq_refl).
  reflexivity.
Defined.

(** C8 on a component mounted without a track. *)
Lemma _attachTrack_without_handle_witness :
  let s := state_with (props_with undefined) (obj 1) in
  absent_or_no_handle undefined /\
  (_attachTrack (E:=webrtc_library) undefined s = Normal tt s /\
   (videoTrack (props (this s)) = undefined ->
    existsb is_library_call
      (new_events s (componentDidMount (E:=webrtc_library) s)) = false /\
    _videoElement (this (final_state (componentDidMount (E:=webrtc_library) s)))
    = _videoElement (this s))).
Proof.
  intros s. split; [left; reflexivity |].
  apply (_attachTrack_without_handle (E:=webrtc_library) undefined s).
  left. reflexivity.
Defined.

(** C10 on two instances that share [className] and [id] and nothing
    else. *)
Lemma render_depends_on_className_and_id_witness :
  let t1 :=
    {| props := {| className := "large-video"; id := "largeVideo";
                   onVideoPlaying := undefined;
                   videoTrack := obj trackA |};
       _videoElement := null |} in
  let t2 :=
    {| props := {| className := "large-video"; id := "largeVideo";
                   onVideoPlaying := obj 5;
                   videoTrack := obj trackB |};
       _videoElement := obj 1 |} in
  className (props t1) = className (props t2) /\
  id (props t1) = id (props t2) /\
  render t1 = render t2.
Proof.
  intros t1 t2. split; [reflexivity |]. split; [reflexivity |].
  apply (render_depends_on_className_and_id t1 t2); reflexivity.
Defined.

(** C5 on the mounted component: its own track is detached, a track that
    does not have the surface is not. *)
Lemma _detachTrack_calls_detach_iff_witness :
  let s := mounted_with_trackA in
  new_events s (_detachTrack (obj trackA) s) = [EvDetach 7 1] /\
  _detachTrack (obj trackB) s = Normal tt s /\
  existsb is_detach (new_events s (componentWillUnmount s)) = true.
Proof.
  intros s.
  destruct (_detachTrack_calls_detach_iff (obj trackA) s)
    as (_ & Hyes & _ & _ & Hunmount).
  destruct (_detachTrack_calls_detach_iff (obj trackB) s)
    as (_ & _ & Hno & _).
  assert (Hcond : detach_conditions (this s) (obj trackA) (world s) 7 1).
  { split; [reflexivity |]. exists trackA. repeat split; reflexivity. }
  split; [apply (Hyes 7 1 Hcond) |].
  split.
  - apply Hno. intros h e (He & v & Hv & Hh & Hin).
    injection Hv as <-. injection He as <-. injection Hh as <-.
    vm_compute in Hin. discriminate Hin.
  - apply Hunmount. exists 7, 1. exact Hcond.
Defined.

(** C9 under the Temasys plugin: the mount writes on element 1 and stores
    object 101, on which nothing is written, then or later. *)
Lemma element_writes_only_in_componentDidMount_witness :
  let s := state_with (props_with (obj trackA)) (obj 1) in
  let s' := final_state (componentDidMount (E:=temasys_library) s) in
  _videoElement (this s') = obj 101 /\
  (forall ev,
     In ev (new_events s (componentDidMount (E:=temasys_library) s)) ->
     is_element_write ev = true -> write_target ev = Some 1) /\
  existsb is_element_write
    (new_events s'
       (shouldComponentUpdate (E:=temasys_library)
          (props_with (obj trackB)) s')) = false.
Proof.
  intros s s'. split; [reflexivity |].
  split.
  - intros ev.
    apply (element_writes_only_in_componentDidMount (E:=temasys_library) s).
    reflexivity.
  - apply (element_writes_only_in_componentDidMount (E:=temasys_library) s').
Defined.

End InABrowser.

(** * Further properties of the component *)

(** ** What the methods leave alone *)

Section Frames.
Context {X : Type} {E : Externals X}.

Lemma keeps_props_ret {A} (a : A) : keeps_props (X:=X) (ret a).
Proof. intros s. reflexivity. Qed.

Lemma keeps_props_bind {A B} (m : M X A) (k : A -> M X B) :
  keeps_props m -> (forall a, keeps_props (k a)) -> keeps_props (bind m k).
Proof.
  intros Hm Hk s. unfold bind. specialize (Hm s).
  destruct (m s) as [a s1 | err s1]; cbn in Hm |- *.
  - now rewrite Hk.
  - exact Hm.
Qed.

Lemma keeps_props_emit (ev : Event) (f : World X -> World X) :
  keeps_props (emit ev f).
Proof. intros s. reflexivity. Qed.

Lemma keeps_props_setVideoElement (x : js elem) :
  keeps_props (X:=X) (_setVideoElement x).
Proof. intros s. reflexivity. Qed.

Lemma keeps_props_attachTrack (vt : js VideoTrack) :
  keeps_props (X:=X) (_attachTrack vt).
Proof.
  intros s. destruct (and_jitsiTrack vt) as [| |h] eqn:Hh.
  1,2: now rewrite _attachTrack_falsy by now rewrite Hh.
  now rewrite (_attachTrack_handle _ _ _ Hh).
Qed.

Lemma this_detachTrack (vt : js VideoTrack) (s : State X) :
  this (final_state (_detachTrack vt s)) = this s.
Proof.
  destruct (detach_conditions_dec (this s) vt (world s))
    as [(h & e & Hd) | Hd].
  - now rewrite (_detachTrack_holds _ _ _ _ Hd).
  - now rewrite (_detachTrack_fails _ _ Hd).
Qed.

Lemma keeps_props_detachTrack (vt : js VideoTrack) :
  keeps_props (X:=X) (_detachTrack vt).
Proof. intros s. now rewrite this_detachTrack. Qed.

Lemma keeps_props_set_volume (x : js elem) (v : Z) :
  keeps_props (X:=X) (set_volume x v).
Proof. intros s. now destruct x. Qed.

Lemma keeps_props_set_onplaying (x : js elem) (f : EventHandler) :
  keeps_props (X:=X) (set_onplaying x f).
Proof. intros s. now destruct x. Qed.

Lemma keeps_props_componentDidMount :
  keeps_props (X:=X) componentDidMount.
Proof.
  unfold componentDidMount.
  apply keeps_props_bind; [intros s; reflexivity | intros t].
  apply keeps_props_bind; [apply keeps_props_set_volume | intros _].
  apply keeps_props_bind; [intros s; reflexivity | intros t'].
  apply keeps_props_bind; [apply keeps_props_set_onplaying | intros _].
  apply keeps_props_bind; [intros s; reflexivity | intros t''].
  apply keeps_props_attachTrack.
Qed.

Lemma keeps_props_shouldComponentUpdate (nextProps : Props) :
  keeps_props (X:=X) (shouldComponentUpdate nextProps).
Proof.
  unfold shouldComponentUpdate.
  apply keeps_props_bind; [intros s; reflexivity | intros t]. cbv zeta.
  apply keeps_props_bind; [| intros; apply keeps_props_ret].
  destruct (strict_neq _ _); [| apply keeps_props_ret].
  apply keeps_props_bind; [apply keeps_props_detachTrack | intros].
  apply keeps_props_attachTrack.
Qed.

(** X1.  No method of the class assigns [this.props].  In particular
    [shouldComponentUpdate] does not adopt the props it is given: that is
    left to React.  [_detachTrack], [componentWillUnmount] and
    [_onVideoPlaying] leave the stored surface as well, so the surface a
    detach was given is still the one the next attach is given. *)
Theorem methods_keep_props (s : State X) :
  (forall vt, props (this (final_state (_attachTrack vt s)))
              = props (this s)) /\
  (forall nextProps,
     props (this (final_state (shouldComponentUpdate nextProps s)))
     = props (this s)) /\
  props (this (final_state (componentDidMount s))) = props (this s) /\
  (forall x, props (this (final_state (_setVideoElement x s)))
             = props (this s)) /\
  (forall vt, this (final_state (_detachTrack vt s)) = this s) /\
  this (final_state (componentWillUnmount s)) = this s /\
  this (final_state (_onVideoPlaying s)) = this s.
Proof.
  split; [intros; apply keeps_props_attachTrack |].
  split; [intros; apply keeps_props_shouldComponentUpdate |].
  split; [apply keeps_props_componentDidMount |].
  split; [intros; reflexivity |].
  split; [intros; apply this_detachTrack |].
  split; [apply (this_detachTrack (videoTrack (props (this s)))) |].
  unfold _onVideoPlaying, bind, get_this.
  now destruct (onVideoPlaying (props (this s))).
Qed.

End Frames.

(** ** Edges of the hooks *)

Section Edges.
Context {X : Type} {E : Externals X}.

Lemma no_handle_no_detach_conditions (t : Video) (vt : js VideoTrack)
    (w : World X) :
  truthy (and_jitsiTrack vt) = false ->
  forall h e, ~ detach_conditions t vt w h e.
Proof.
  intros Hvt h e (_ & v & -> & Hh & _). cbn in Hvt.
  rewrite Hh in Hvt. discriminate.
Qed.

Lemma no_surface_no_detach_conditions (t : Video) (vt : js VideoTrack)
    (w : World X) :
  truthy (_videoElement t) = false ->
  forall h e, ~ detach_conditions t vt w h e.
Proof.
  intros Ht h e (He & _). rewrite He in Ht. discriminate.
Qed.

(** X2.  [componentDidMount] on an instance that holds no surface (the ref
    callback did not run, or ran with [null]) throws a [TypeError] at the
    assignment of [volume]: nothing is written, the library is not called,
    the state is as it was. *)
Theorem componentDidMount_without_surface_throws (s : State X) :
  truthy (_videoElement (this s)) = false ->
  componentDidMount s = Thrown TypeError s.
Proof.
  intros Hnone. unfold componentDidMount, bind, get_this.
  destruct (_videoElement (this s)); [reflexivity | reflexivity |].
  discriminate.
Qed.

(** X3.  When neither the current track nor the next one has a JitsiTrack,
    [shouldComponentUpdate] leaves the state as it is and answers [false],
    also when the comparison sees a change, as between [undefined] and
    [null]. *)
Theorem shouldComponentUpdate_no_tracks (nextProps : Props) (s : State X) :
  truthy (and_jitsiTrack (videoTrack (props (this s)))) = false ->
  truthy (and_jitsiTrack (videoTrack nextProps)) = false ->
  shouldComponentUpdate nextProps s = Normal false s.
Proof.
  intros Hcur Hnext. rewrite shouldComponentUpdate_unfold.
  destruct (strict_neq _ _); [| reflexivity].
  rewrite (_detachTrack_fails _ _
             (no_handle_no_detach_conditions _ _ _ Hcur)).
  cbn [final_state]. now rewrite (_attachTrack_falsy _ _ Hnext).
Qed.

(** X4.  When the library's [attach] returns a falsy value, [_attachTrack]
    stores it all the same: the component holds no surface any more, and no
    later [_detachTrack] or [componentWillUnmount] calls the library, for
    any track and in any world. *)
Theorem attach_returning_nothing_disables_detach (vt : js VideoTrack)
    (h : handle) (s : State X) :
  and_jitsiTrack vt = obj h ->
  truthy (fst (track_attach h (_videoElement (this s)) (world s))) = false ->
  let s' := final_state (_attachTrack vt s) in
  truthy (_videoElement (this s')) = false /\
  forall s2 : State X,
    _videoElement (this s2) = _videoElement (this s') ->
    (forall vt2, _detachTrack vt2 s2 = Normal tt s2) /\
    componentWillUnmount s2 = Normal tt s2.
Proof.
  intros Hh Hret s'. subst s'.
  rewrite (_attachTrack_handle _ _ _ Hh). cbn [final_state].
  split; [exact Hret |].
  intros s2 Hstored. cbn in Hstored.
  assert (Hnone : truthy (_videoElement (this s2)) = false)
    by now rewrite Hstored.
  split.
  - intros vt2. apply _detachTrack_fails.
    now apply no_surface_no_detach_conditions.
  - apply (_detachTrack_fails (videoTrack (props (this s2)))).
    now apply no_surface_no_detach_conditions.
Qed.

(** X5.  A mount never calls [detach] and an unmount never calls [attach];
    a mount calls [attach] at most once and an unmount calls [detach] at
    most once. *)
Theorem mount_and_unmount_calls (s : State X) :
  existsb is_detach (new_events s (componentDidMount s)) = false /\
  length (List.filter is_attach (new_events s (componentDidMount s))) <= 1 /\
  existsb is_attach (new_events s (componentWillUnmount s)) = false /\
  length (List.filter is_detach (new_events s (componentWillUnmount s))) <= 1.
Proof.
  assert (Hmount : exists evs,
    new_events s (componentDidMount s) = evs /\
    existsb is_detach evs = false /\
    length (List.filter is_attach evs) <= 1).
  { destruct (_videoElement (this s)) as [| |el] eqn:Hel.
    1,2: unfold componentDidMount, bind, get_this; rewrite Hel; cbn;
      exists []; rewrite new_events_thrown; repeat split; cbn; lia.
    destruct (componentDidMount_surface s el Hel)
      as (s1 & -> & Hthis & Hlog & _).
    destruct (and_jitsiTrack (videoTrack (props (this s)))) as [| |h] eqn:Hh.
    1,2: rewrite _attachTrack_falsy by (now rewrite Hh);
      eexists; split; [apply new_events_app; exact Hlog |];
      split; cbn; [reflexivity | lia].
    rewrite (_attachTrack_handle _ _ _ Hh).
    eexists. split.
    - apply new_events_app. cbn. rewrite Hlog, <- app_assoc. reflexivity.
    - split; cbn; [reflexivity | lia]. }
  destruct Hmount as (evs & -> & Hnodetach & Hattach).
  split; [exact Hnodetach |]. split; [exact Hattach |].
  change (componentWillUnmount s)
    with (_detachTrack (videoTrack (props (this s))) s).
  destruct (new_events_detachTrack (videoTrack (props (this s))) s)
    as [(h & e & _ & ->) | [_ ->]]; split; cbn; (reflexivity || lia).
Qed.

(** X6.  With a library that binds the surface it returns, an attach
    followed by a detach of the same track makes two calls: [attach] with
    the stored surface, then [detach] with the surface [attach] returned. *)
Theorem attach_then_detach (vt : js VideoTrack) (h : handle) (e' : elem)
    (s : State X) :
  attach_registers E ->
  and_jitsiTrack vt = obj h ->
  fst (track_attach h (_videoElement (this s)) (world s)) = obj e' ->
  new_events s ((_attachTrack vt ;; _detachTrack vt) s)
  = [EvAttach h (_videoElement (this s)); EvDetach h e'].
Proof.
  intros Hreg Hh Hret. unfold bind.
  rewrite (_attachTrack_handle _ _ _ Hh).
  assert (Hd : detach_conditions (this (after_attach h s)) vt
                 (world (after_attach h s)) h e').
  { apply and_jitsiTrack_obj in Hh as (v & -> & Hv).
    split; [exact Hret |]. exists v. repeat split; [exact Hv |].
    apply (Hreg h _ _ e' Hret). }
  rewrite (_detachTrack_holds _ _ _ _ Hd).
  apply new_events_app. cbn. now rewrite <- app_assoc.
Qed.

End Edges.

(** ** The surface on a mounted component *)

Section Mounted.
Context {X : Type} {E : Externals X}.

Lemma _attachTrack_binds (vt : js VideoTrack) (s : State X) :
  attach_registers E ->
  (truthy (and_jitsiTrack vt) = false -> bound_to vt s) ->
  bound_to vt (final_state (_attachTrack vt s)).
Proof.
  intros Hreg Hfalsy.
  destruct (and_jitsiTrack vt) as [| |h] eqn:Hh.
  1,2: rewrite _attachTrack_falsy by (now rewrite Hh);
    intros e hd _ Hhd; rewrite Hh in Hhd; discriminate.
  rewrite (_attachTrack_handle _ _ _ Hh). cbn [final_state].
  intros e hd He Hhd. rewrite Hh in Hhd. injection Hhd as <-.
  exact (Hreg h _ _ e He).
Qed.

Lemma lifecycle_keeps_bound (op : Lifecycle) (h : Host X) :
  attach_registers E -> bound_to_props h -> bound_to_props (lifecycle op h).
Proof.
  intros Hreg Hbound. unfold lifecycle.
  destruct op as [p el | nextProps |]; destruct (instance h) as [t|] eqn:Ht;
    try exact Hbound.
  - unfold bound_to_props, host_of, run_on. cbn [instance outside effects].
    set (s0 := {| this := {| props := p; _videoElement := obj el |};
                  world := outside h; log := effects h |}).
    change (mount el {| this := constructor p; world := outside h;
                        log := effects h |})
      with (componentDidMount s0).
    destruct (componentDidMount_surface s0 el eq_refl)
      as (s1 & -> & Hthis & _).
    assert (Hb : bound_to (videoTrack p)
                   (final_state (_attachTrack (videoTrack p) s1))).
    { apply _attachTrack_binds; [exact Hreg |].
      intros Hfalsy e hd _ Hhd. rewrite Hhd in Hfalsy. discriminate. }
    assert (Hp : props (this (final_state (_attachTrack (videoTrack p) s1)))
                 = p).
    { rewrite keeps_props_attachTrack, Hthis. reflexivity. }
    cbn [props this s0]. rewrite Hp.
    now destruct (final_state _) as [t' w' l'].
  - unfold bound_to_props in Hbound. rewrite Ht in Hbound.
    unfold bound_to_props, host_of, run_on, update, bind, get_this, put_this.
    cbn [instance outside effects].
    set (s := {| this := t; world := outside h; log := effects h |}) in *.
    rewrite shouldComponentUpdate_unfold.
    destruct (strict_neq _ _) eqn:Hneq;
      cbn [final_state this world log props].
    + assert (Hb := _attachTrack_binds (videoTrack nextProps)
                      (final_state (_detachTrack (videoTrack (props t)) s))
                      Hreg).
      intros e hd He Hhd. cbn in He. apply Hb; try assumption.
      intros Hfalsy e0 hd0 _ Hhd0. rewrite Hhd0 in Hfalsy. discriminate.
    + apply negb_false_iff, strict_eq_true in Hneq.
      intros e hd He Hhd. cbn in He. apply (Hbound e hd He).
      cbn [this props s] in Hneq. now rewrite Hneq.
  - exact I.
Qed.

Lemma reachable_bound (h : Host X) :
  attach_registers E -> reachable h -> bound_to_props h.
Proof.
  intros Hreg. induction 1 as [w | op h Hreach IH Hadm].
  - exact I.
  - now apply lifecycle_keeps_bound.
Qed.

(** X7.  With a library that binds the surface it returns, in every state
    reached by mounts, updates and unmounts the surface a mounted component
    holds is among the containers of the JitsiTrack of its props.  So
    unmounting a component that holds a surface and has a track with a
    JitsiTrack does call [detach], once, with that surface on that
    JitsiTrack. *)
Theorem unmount_detaches_bound_track (h : Host X) (t : Video)
    (hd : handle) (e : elem) :
  attach_registers E ->
  reachable h ->
  instance h = Some t ->
  _videoElement t = obj e ->
  and_jitsiTrack (videoTrack (props t)) = obj hd ->
  includes e (track_containers hd (ext (outside h))) = true /\
  new_events {| this := t; world := outside h; log := effects h |}
    (componentWillUnmount
       {| this := t; world := outside h; log := effects h |})
  = [EvDetach hd e].
Proof.
  intros Hreg Hreach Ht He Hhd.
  pose proof (reachable_bound h Hreg Hreach) as Hbound.
  unfold bound_to_props in Hbound. rewrite Ht in Hbound.
  pose proof (Hbound e hd He Hhd) as Hin. cbn in Hin.
  split; [exact Hin |].
  set (s := {| this := t; world := outside h; log := effects h |}).
  assert (Hd : detach_conditions (this s) (videoTrack (props (this s)))
                 (world s) hd e).
  { apply and_jitsiTrack_obj in Hhd as (v & Hv & Hvh).
    split; [exact He |]. exists v. auto. }
  change (componentWillUnmount s)
    with (_detachTrack (videoTrack (props (this s))) s).
  rewrite (_detachTrack_holds _ _ _ _ Hd).
  apply new_events_after_detach.
Qed.

(** X8.  With a library that keeps the contract, unmounting from any state
    reached by mounts and updates leaves the surface with no track: none has
    it among its containers after [componentWillUnmount]. *)
Theorem unmount_frees_surface (h : Host X) (t : Video) :
  TrackContract E ->
  reachable h ->
  instance h = Some t ->
  surface_free
    (final_state
       (componentWillUnmount
          {| this := t; world := outside h; log := effects h |})).
Proof.
  intros Hcontract Hreach Ht.
  pose proof (reachable_held Hcontract h Hreach) as Hheld.
  unfold held_by_props in Hheld. rewrite Ht in Hheld.
  exact (proj1 (_detachTrack_frees Hcontract _ _ Hheld)).
Qed.

End Mounted.

(** ** The further properties at work *)

(** The example libraries bind the surface they return. *)
Lemma example_library_registers (replacement : elem -> elem) :
  attach_registers (example_library replacement).
Proof.
  intros h x w e' Hret. destruct x as [| |e]; try discriminate.
  cbn in Hret |- *. injection Hret as <-.
  rewrite containers_of_insert, Nat.eqb_refl.
  apply includes_In, in_or_app. right. now left.
Qed.

Lemma host_mounted_temasys_reachable :
  reachable (E:=temasys_library) host_mounted_temasys.
Proof.
  unfold host_mounted_temasys.
  apply reachable_lifecycle; [apply reachable_unmounted |].
  intros hd. reflexivity.
Qed.

(** X2 on an instance whose ref callback did not run. *)
Lemma componentDidMount_without_surface_throws_witness :
  let s := state_with (props_with (obj trackA)) null in
  truthy (_videoElement (this s)) = false /\
  componentDidMount (E:=webrtc_library) s = Thrown TypeError s.
Proof.
  intros s. split; [reflexivity |].
  apply (componentDidMount_without_surface_throws (E:=webrtc_library) s).
  reflexivity.
Defined.

(** X3 on props that go from no track to a [null] track. *)
Lemma shouldComponentUpdate_no_tracks_witness :
  let s := state_with (props_with undefined) (obj 1) in
  let nextProps := props_with null in
  strict_neq (and_jitsiTrack (videoTrack (props (this s))))
    (and_jitsiTrack (videoTrack nextProps)) = true /\
  truthy (and_jitsiTrack (videoTrack (props (this s)))) = false /\
  truthy (and_jitsiTrack (videoTrack nextProps)) = false /\
  shouldComponentUpdate (E:=webrtc_library) nextProps s = Normal false s.
Proof.
  intros s nextProps. split; [reflexivity |].
  split; [reflexivity |]. split; [reflexivity |].
  apply (shouldComponentUpdate_no_tracks (E:=webrtc_library) nextProps s);
    reflexivity.
Defined.

(** X4 with the library whose [attach] returns nothing. *)
Lemma attach_returning_nothing_disables_detach_witness :
  let s := state_with (props_with (obj trackA)) (obj 1) in
  and_jitsiTrack (obj trackA) = obj 7 /\
  truthy (fst (track_attach (Externals:=void_library) 7
                 (_videoElement (this s)) (world s))) = false /\
  (let s' := final_state (_attachTrack (E:=void_library) (obj trackA) s) in
   track_containers (Externals:=void_library) 7 (ext (world s')) = [1] /\
   truthy (_videoElement (this s')) = false /\
   forall s2 : State (gmap nat (list nat)),
     _videoElement (this s2) = _videoElement (this s') ->
     (forall vt2, _detachTrack (E:=void_library) vt2 s2 = Normal tt s2) /\
     componentWillUnmount (E:=void_library) s2 = Normal tt s2).
Proof.
  intros s. split; [reflexivity |]. split; [reflexivity |].
  split; [reflexivity |].
  apply (attach_returning_nothing_disables_detach (E:=void_library)
           (obj trackA) 7 s); reflexivity.
Defined.

(** X6 under the Temasys plugin: element 1 is attached, object 101 is
    detached. *)
Lemma attach_then_detach_witness :
  let s := state_with (props_with (obj trackA)) (obj 1) in
  attach_registers temasys_library /\
  and_jitsiTrack (obj trackA) = obj 7 /\
  fst (track_attach (Externals:=temasys_library) 7
         (_videoElement (this s)) (world s)) = obj 101 /\
  new_events s
    ((_attachTrack (E:=temasys_library) (obj trackA) ;;
      _detachTrack (E:=temasys_library) (obj trackA)) s)
  = [EvAttach 7 (obj 1); EvDetach 7 101].
Proof.
  intros s. split; [apply example_library_registers |].
  split; [reflexivity |]. split; [reflexivity |].
  apply (attach_then_detach (E:=temasys_library) (obj trackA) 7 101 s).
  - apply example_library_registers.
  - reflexivity.
  - reflexivity.
Defined.

(** X7 on the component mounted under the Temasys plugin. *)
Lemma unmount_detaches_bound_track_witness :
  let t := {| props := props_with (obj trackA); _videoElement := obj 101 |} in
  let h := host_mounted_temasys in
  attach_registers temasys_library /\
  reachable (E:=temasys_library) h /\
  instance h = Some t /\
  _videoElement t = obj 101 /\
  and_jitsiTrack (videoTrack (props t)) = obj 7 /\
  (includes 101
     (track_containers (Externals:=temasys_library) 7 (ext (outside h)))
   = true /\
   new_events {| this := t; world := outside h; log := effects h |}
     (componentWillUnmount (E:=temasys_library)
        {| this := t; world := outside h; log := effects h |})
   = [EvDetach 7 101]).
Proof.
  intros t h.
  split; [apply example_library_registers |].
  split; [exact host_mounted_temasys_reachable |].
  split; [reflexivity |]. split; [reflexivity |]. split; [reflexivity |].
  apply (unmount_detaches_bound_track (E:=temasys_library) h t 7 101).
  - apply example_library_registers.
  - exact host_mounted_temasys_reachable.
  - reflexivity.
  - reflexivity.
  - reflexivity.
Defined.

(** X8 on the component mounted with one track and updated to another. *)
Lemma unmount_frees_surface_witness :
  let t := {| props := props_with (obj trackB); _videoElement := obj 1 |} in
  let h := host_after_track_change in
  TrackContract webrtc_library /\
  reachable (E:=webrtc_library) h /\
  instance h = Some t /\
  surface_free (E:=webrtc_library)
    (final_state
       (componentWillUnmount (E:=webrtc_library)
          {| this := t; world := outside h; log := effects h |})).
Proof.
  intros t h.
  split; [exact webrtc_contract |].
  split; [exact host_after_track_change_reachable |].
  split; [reflexivity |].
  apply (unmount_frees_surface (E:=webrtc_library) h t).
  - exact webrtc_contract.
  - exact host_after_track_change_reachable.
  - reflexivity.
Defined.
